(** * Controlled-form state of [App.jsx]

    A shallow embedding of the [App] component of [react_forms/src/App.jsx]:
    the object store, the [useState] cell, the two event handlers
    [handleSubmit] and [handleChange], and the render function, followed by
    the properties of the form state they maintain. *)

From stdpp Require Import base gmap strings list.

Open Scope string_scope.
Open Scope list_scope.

(** ** JavaScript values used by the component *)

(** A plain object whose own properties hold strings: the shape of
    [initialState] and of every object built by [handleChange]. *)
Abbreviation JSObject := (gmap string string).

(** Objects live in a store and are passed around by reference. *)
Abbreviation loc := positive.

Module DOM.
(** The part of a form control that [handleChange] reads: [e.target.id]
    and [e.target.value]. *)
Record Element := { id : string; value : string }.

(** A change event, as received by an [onChange] handler. *)
Record ChangeEvent := { target : Element }.

(** A submit event. The handler only calls [preventDefault] on it, so the
    event is represented by its identity. *)
Record SubmitEvent := { timeStamp : nat }.

#[global] Instance SubmitEvent_eq_dec : EqDecision SubmitEvent.
Proof. solve_decision. Defined.
End DOM.

(** ** Effects visible outside the component *)

Inductive Effect :=
| PreventDefault (e : DOM.SubmitEvent)
    (* e.preventDefault() *)
| ConsoleLog (l : loc) (shown : JSObject)
    (* console.log(o): the reference passed and the properties it has then *)
| SetFormState (l : loc).
    (* setFormState(o) *)

#[export] Instance Effect_eq_dec : EqDecision Effect.
Proof. solve_decision. Defined.

(** ** The world a handler runs in *)

Record World := {
  heap  : gmap loc JSObject;   (* every object allocated so far *)
  hook  : option loc;          (* the useState cell of App; None before mount *)
  trace : list Effect          (* effects performed so far, oldest first *)
}.

Definition empty_world : World :=
  {| heap := ∅; hook := None; trace := [] |}.

(** The properties of the object a reference points to. *)
Definition deref (w : World) (l : loc) : JSObject :=
  default ∅ (heap w !! l).

(** ** A small state monad for the component's code *)

Definition M (A : Type) : Type := World → A * World.

#[export] Instance M_ret : MRet M := λ A a w, (a, w).

#[export] Instance M_bind : MBind M := λ A B k m w,
  let (a, w') := m w in k a w'.

(** The world a computation leaves behind. *)
Definition exec {A} (m : M A) (w : World) : World := (m w).2.

(** Evaluation of an object literal: a new object at an unused reference. *)
Definition new_object (o : JSObject) : M loc :=
  λ w, let l := fresh (dom (heap w)) in
       (l, {| heap := <[l := o]> (heap w); hook := hook w; trace := trace w |}).

(** [{...src, [k]: v}]: the own properties of [src] are copied into a new
    object, then property [k] is defined on it. *)
Definition spread_with (src : loc) (k v : string) : M loc :=
  λ w, new_object (<[k := v]> (deref w src)) w.

Definition emit (ef : Effect) : M unit :=
  λ w, (tt, {| heap := heap w; hook := hook w; trace := trace w ++ [ef] |}).

Definition preventDefault (e : DOM.SubmitEvent) : M unit :=
  emit (PreventDefault e).

Definition console_log (l : loc) : M unit :=
  λ w, emit (ConsoleLog l (deref w l)) w.

(** [useState(init)]: on the first render the cell is initialised with
    [init]; on later renders the argument is ignored and the stored value is
    returned. *)
Definition useState (init : loc) : M loc :=
  λ w, match hook w with
       | Some l => (l, w)
       | None => (init, {| heap := heap w; hook := Some init; trace := trace w |})
       end.

(** The setter returned by [useState]: the cell holds the new reference from
    the next render on. *)
Definition setFormState (l : loc) : M unit :=
  λ w, emit (SetFormState l)
         {| heap := heap w; hook := Some l; trace := trace w |}.

(** ** The component *)

(** The properties of the literal bound to [initialState] (lines 5-9). *)
Definition initialState_literal : JSObject :=
  {[ "issueType" := EmptyString; "subject" := EmptyString; "message" := EmptyString ]}.

(** What the handlers created by one render close over: that render's
    [initialState] object and the [formState] it read from the cell. *)
Record Closure := { initialState : loc; formState : loc }.

(** Lines 13-17. *)
Definition handleSubmit (c : Closure) (e : DOM.SubmitEvent) : M unit :=
  preventDefault e ;;
  console_log (formState c) ;;
  setFormState (initialState c).

(** Lines 19-21. *)
Definition handleChange (c : Closure) (e : DOM.ChangeEvent) : M unit :=
  o ← spread_with (formState c) (DOM.id (DOM.target e)) (DOM.value (DOM.target e));
  setFormState o.

(** One call of [App] (lines 4-22): the literal is evaluated again on every
    render, [useState] yields the current form state, and the handlers close
    over both. *)
Definition App : M Closure :=
  i ← new_object initialState_literal;
  f ← useState i;
  mret {| initialState := i; formState := f |}.

(** ** The mounted component and its events *)

Inductive Event :=
| Change (e : DOM.ChangeEvent)
| Submit (e : DOM.SubmitEvent).

(** A mounted component: the world and the handlers of the latest render. *)
Record Component := { world : World; handlers : Closure }.

Definition rendered (r : Closure * World) : Component :=
  {| world := r.2; handlers := r.1 |}.

Definition mount : Component := rendered (App empty_world).

(** An event runs the handler of the latest render to completion; the call
    of [setFormState] it makes is followed by a new render. *)
Definition handle (ev : Event) (c : Closure) : M unit :=
  match ev with
  | Change e => handleChange c e
  | Submit e => handleSubmit c e
  end.

Definition fire (ev : Event) (comp : Component) : Component :=
  rendered (App (exec (handle ev (handlers comp)) (world comp))).

Definition run (evs : list Event) (comp : Component) : Component :=
  foldl (λ c ev, fire ev c) comp evs.

(** The form state a user of the component observes: the properties of the
    object held in the [useState] cell. *)
Definition state_of (w : World) : JSObject :=
  from_option (deref w) ∅ (hook w).

Definition FormState (comp : Component) : JSObject := state_of (world comp).

(** The properties of the [initialState] object of the latest render. *)
Definition InitialState (comp : Component) : JSObject :=
  deref (world comp) (initialState (handlers comp)).

(** A field edit of [k] to [v]. *)
Definition edit (k v : string) : Event :=
  Change {| DOM.target := {| DOM.id := k; DOM.value := v |} |}.

(** What the console has been handed so far, oldest first. *)
Definition logged (w : World) : list JSObject :=
  omap (λ ef, match ef with ConsoleLog _ o => Some o | _ => None end) (trace w).

(** ** Consistency of a mounted component

    The handlers in use are those of the latest render: their [formState]
    is the object held in the [useState] cell, their [initialState] is an
    object with the properties of the literal, and the form state has at
    least the keys of the literal. *)
Definition Inv (comp : Component) : Prop :=
  hook (world comp) = Some (formState (handlers comp))
  ∧ is_Some (heap (world comp) !! formState (handlers comp))
  ∧ heap (world comp) !! initialState (handlers comp) = Some initialState_literal
  ∧ dom initialState_literal ⊆ dom (FormState comp).

#[export] Instance Inv_dec comp : Decision (Inv comp).
Proof. unfold Inv. apply _. Defined.

(** A change event raised by one of the three controls of the form, whose
    ids are the keys of [initialState]; every submit event. *)
Definition known_field (ev : Event) : Prop :=
  match ev with
  | Change e => DOM.id (DOM.target e) ∈ dom initialState_literal
  | Submit _ => True
  end.

#[export] Instance known_field_dec ev : Decision (known_field ev).
Proof. destruct ev; simpl; apply _. Defined.

(** ** The rendered form (lines 23-41) *)

(** The two handlers an element of the form can be wired to. *)
Inductive Handler := HandleChange | HandleSubmit.

#[export] Instance Handler_eq_dec : EqDecision Handler.
Proof. solve_decision. Defined.

(** The elements inside the [form]. A [value] attribute holds the result of
    a property read such as [formState.subject], which is [undefined]
    ([None]) when the object has no such property. *)
Inductive Node :=
| label (htmlFor text : string)
| select (id : string) (onChange : Handler) (value : option string)
         (options : list (string * string))   (* value and text of each option *)
| input (type_ id : string) (onChange : Handler) (value : option string)
| textarea (id cols rows : string) (onChange : Handler) (value : option string)
| button (type_ text : string).

#[export] Instance Node_eq_dec : EqDecision Node.
Proof. solve_decision. Defined.

Record Form := { onSubmit : Handler; children : list Node }.

(** The JSX returned by [App], for the [formState] of the render. *)
Definition view (formState : JSObject) : Form :=
  {| onSubmit := HandleSubmit;
     children :=
       [ label "issueType" "Type of Issue:";
         select "issueType" HandleChange (formState !! "issueType")
           [ ("default", "Select Issue");
             ("outage", "Service Outage");
             ("billing", "Billing");
             ("cancel", "Cancel Service") ];
         label "subject" "Subject:";
         input "text" "subject" HandleChange (formState !! "subject");
         label "message" "Message";
         textarea "message" "30" "10" HandleChange (formState !! "message");
         button "submit" "Send" ] |}.

(** What a mounted component shows: the JSX of its latest render. *)
Definition render_view (comp : Component) : Form :=
  view (deref (world comp) (formState (handlers comp))).

(** The id of a form control, and the value it is bound to. *)
Definition control_id (n : Node) : option string :=
  match n with
  | select id _ _ _ | input _ id _ _ | textarea id _ _ _ _ => Some id
  | label _ _ | button _ _ => None
  end.

Definition control_value (n : Node) : option string :=
  match n with
  | select _ _ v _ | input _ _ _ v | textarea _ _ _ _ v => v
  | label _ _ | button _ _ => None
  end.

(** The [value] attribute of the control with id [k]. *)
Definition shown (f : Form) (k : string) : option string :=
  n ← list_find (λ n, control_id n = Some k) (children f);
  control_value n.2.

(** A control is controlled when its [value] is not [undefined]. *)
Definition controlled (n : Node) : Prop :=
  match control_id n with
  | Some _ => is_Some (control_value n)
  | None => True
  end.

#[export] Instance controlled_dec n : Decision (controlled n).
Proof. unfold controlled. destruct (control_id n); apply _. Defined.

(** The values carried by the options of a [select]. *)
Definition option_values (n : Node) : list string :=
  match n with
  | select _ _ _ opts => opts.*1
  | _ => []
  end.

(** The change events an element can raise: the target is the element, so
    the event carries the element's id; a [select] reports the value of one
    of its options, a text control any text. Only elements wired to
    [handleChange] pass them on. A submit comes from a button of type
    [submit]. *)
Definition raises_change (n : Node) (e : DOM.ChangeEvent) : Prop :=
  match n with
  | select id HandleChange _ opts =>
      DOM.id (DOM.target e) = id ∧ DOM.value (DOM.target e) ∈ opts.*1
  | input _ id HandleChange _ | textarea id _ _ HandleChange _ =>
      DOM.id (DOM.target e) = id
  | _ => False
  end.

#[export] Instance raises_change_dec n e : Decision (raises_change n e).
Proof. destruct n as [| ? [] | ? ? [] | ? ? ? [] |]; simpl; apply _. Defined.

(** The events a rendered form passes to the component's handlers: change
    events of its controls, and submit events when it has a submit button
    and is wired to [handleSubmit]. *)
Definition submit_button (n : Node) : Prop :=
  match n with
  | button type_ _ => type_ = "submit"
  | _ => False
  end.

#[export] Instance submit_button_dec n : Decision (submit_button n).
Proof. destruct n; simpl; apply _. Defined.

Definition raises (f : Form) (ev : Event) : Prop :=
  match ev with
  | Change e => Exists (λ n, raises_change n e) (children f)
  | Submit _ => onSubmit f = HandleSubmit ∧ Exists submit_button (children f)
  end.

#[export] Instance raises_dec f ev : Decision (raises f ev).
Proof. destruct ev; simpl; apply _. Defined.

(** A sequence of events each raised by the form as rendered when the event
    occurs. *)
Fixpoint driven (evs : list Event) (comp : Component) : Prop :=
  match evs with
  | [] => True
  | ev :: evs' => raises (render_view comp) ev ∧ driven evs' (fire ev comp)
  end.

#[export] Instance driven_dec evs comp : Decision (driven evs comp).
Proof. revert comp. induction evs; intros comp; simpl; apply _. Defined.

(** A render that no event caused, as when a parent renders again. *)
Definition rerender (comp : Component) : Component :=
  rendered (App (world comp)).

(** The first render of [App] in a world where it is not mounted yet. *)
Definition mount_in (w : World) : Component := rendered (App w).

(** Submit events of a sequence. *)
Definition is_submit (ev : Event) : bool :=
  match ev with Submit _ => true | Change _ => false end.

(** Whether a change event targets field [k]. *)
Definition targets (k : string) (ev : Event) : bool :=
  match ev with
  | Change e => bool_decide (DOM.id (DOM.target e) = k)
  | Submit _ => false
  end.

(** ** A hand-off that may throw

    [handleSubmit] has no [try]: when the call of line 15 throws, the
    exception leaves the handler and line 16 is not run. Computations in
    which a call may throw return [None] for a thrown exception, and the
    statements after it are skipped. *)

Definition MT (A : Type) : Type := World → option A * World.

#[export] Instance MT_ret : MRet MT := λ A a w, (Some a, w).



(** How the call to the sink completes. *)
Inductive SinkOutcome := Returns | Throws.

#[export] Instance SinkOutcome_eq_dec : EqDecision SinkOutcome.
Proof. solve_decision. Defined.



(** ** The handlers as world transformers *)

Section Handlers.
Context (w : World) (c : Closure).

(** The object [handleChange] builds is stored at this reference. *)
Definition next_ref : loc := fresh (dom (heap w)).

Lemma next_ref_unused : heap w !! next_ref = None.
Proof. apply not_elem_of_dom, is_fresh. Qed.

Lemma exec_handleChange e :
  exec (handleChange c e) w =
    {| heap := <[next_ref := <[DOM.id (DOM.target e) := DOM.value (DOM.target e)]>
                               (deref w (formState c))]> (heap w);
       hook := Some next_ref;
       trace := trace w ++ [SetFormState next_ref] |}.
Proof. reflexivity. Qed.

Lemma exec_handleSubmit e :
  exec (handleSubmit c e) w =
    {| heap := heap w;
       hook := Some (initialState c);
       trace := trace w ++ [PreventDefault e;
                            ConsoleLog (formState c) (deref w (formState c));
                            SetFormState (initialState c)] |}.
Proof.
  unfold exec, handleSubmit, mbind, M_bind; simpl.
  by rewrite <- !app_assoc.
Qed.

Lemma state_after_handleChange e :
  state_of (exec (handleChange c e) w) =
    <[DOM.id (DOM.target e) := DOM.value (DOM.target e)]> (deref w (formState c)).
Proof.
  rewrite exec_handleChange. unfold state_of, deref; simpl.
  by rewrite lookup_insert_eq.
Qed.

Lemma state_after_handleSubmit e :
  state_of (exec (handleSubmit c e) w) = deref w (initialState c).
Proof. by rewrite exec_handleSubmit. Qed.

(** Objects that exist before [handleChange] runs are the same after. *)
Lemma handleChange_keeps_objects e l o :
  heap w !! l = Some o → heap (exec (handleChange c e) w) !! l = Some o.
Proof.
  intros Hl. rewrite exec_handleChange; simpl.
  rewrite lookup_insert_ne; [done|].
  intros <-. by rewrite next_ref_unused in Hl.
Qed.
End Handlers.

(** A render allocates one object and leaves the rest of the world as it
    is; once mounted, the cell is not written by a render. *)
Section Render.
Context (w : World).

Lemma exec_App_mounted f :
  hook w = Some f →
  App w = ({| initialState := next_ref w; formState := f |},
           {| heap := <[next_ref w := initialState_literal]> (heap w);
              hook := Some f;
              trace := trace w |}).
Proof.
  intros Hf. unfold App, mbind, M_bind, new_object, useState; simpl.
  by rewrite Hf.
Qed.

Lemma deref_App_mounted f l :
  hook w = Some f → is_Some (heap w !! l) →
  deref (App w).2 l = deref w l.
Proof.
  intros Hf [o Hl]. rewrite (exec_App_mounted f Hf). unfold deref; simpl.
  rewrite lookup_insert_ne; [done|].
  intros <-. by rewrite next_ref_unused in Hl.
Qed.

Lemma state_of_App_mounted f :
  hook w = Some f → is_Some (heap w !! f) →
  state_of (App w).2 = state_of w.
Proof.
  intros Hf Hl. pose proof (deref_App_mounted f f Hf Hl) as Hd.
  rewrite (exec_App_mounted f Hf) in *. unfold state_of. simpl.
  by rewrite Hf.
Qed.
End Render.

(** ** Events on a consistent component *)

Section Consistent.
Context (comp : Component) (HInv : Inv comp).

Lemma FormState_Inv :
  FormState comp = deref (world comp) (formState (handlers comp)).
Proof. destruct HInv as (Hh & _). unfold FormState, state_of. by rewrite Hh. Qed.

Lemma InitialState_Inv : InitialState comp = initialState_literal.
Proof. destruct HInv as (_ & _ & Hi & _). unfold InitialState, deref. by rewrite Hi. Qed.

(** After a handler has run, the cell holds an object of the store. *)
Lemma handle_hook ev :
  ∃ l, hook (exec (handle ev (handlers comp)) (world comp)) = Some l
       ∧ is_Some (heap (exec (handle ev (handlers comp)) (world comp)) !! l).
Proof.
  destruct HInv as (_ & _ & Hi & _). destruct ev as [e|e]; cbn [handle].
  - rewrite exec_handleChange; simpl. eexists; split; [done|].
    by rewrite lookup_insert_eq.
  - rewrite exec_handleSubmit; simpl. eexists; split; [done|].
    by rewrite Hi.
Qed.

(** The render that follows an event does not change the form state. *)
Lemma FormState_fire ev :
  FormState (fire ev comp) = state_of (exec (handle ev (handlers comp)) (world comp)).
Proof.
  destruct (handle_hook ev) as (l & Hl & Ha).
  unfold FormState, fire, rendered; simpl.
  by apply (state_of_App_mounted _ l).
Qed.

Lemma FormState_fire_Change e :
  FormState (fire (Change e) comp) =
    <[DOM.id (DOM.target e) := DOM.value (DOM.target e)]> (FormState comp).
Proof.
  rewrite FormState_fire; cbn [handle].
  by rewrite state_after_handleChange, FormState_Inv.
Qed.

Lemma FormState_fire_Submit e :
  FormState (fire (Submit e) comp) = initialState_literal.
Proof.
  rewrite FormState_fire; cbn [handle].
  rewrite state_after_handleSubmit. apply InitialState_Inv.
Qed.

Lemma Inv_fire ev : Inv (fire ev comp).
Proof.
  pose proof (FormState_fire ev) as HF.
  destruct (handle_hook ev) as (l & Hl & Ha).
  unfold Inv. rewrite HF. clear HF.
  unfold fire, rendered. rewrite (exec_App_mounted _ l Hl). cbn [world handlers
    heap hook initialState formState fst snd].
  split_and!.
  - done.
  - destruct Ha as [o Ho]. exists o.
    rewrite lookup_insert_ne; [done|].
    intros <-. by rewrite next_ref_unused in Ho.
  - by rewrite lookup_insert_eq.
  - destruct ev as [e|e]; cbn [handle].
    + rewrite state_after_handleChange, dom_insert_L, <- FormState_Inv.
      destruct HInv as (_ & _ & _ & Hk).
      intros j Hj. apply elem_of_union. right. by apply Hk.
    + rewrite state_after_handleSubmit.
      fold (InitialState comp). by rewrite InitialState_Inv.
Qed.
End Consistent.

Lemma Inv_mount : Inv mount.
Proof. apply (bool_decide_unpack _). vm_compute. exact I. Qed.

Lemma FormState_mount : FormState mount = initialState_literal.
Proof. vm_compute. reflexivity. Qed.

Lemma Inv_run evs comp : Inv comp → Inv (run evs comp).
Proof.
  revert comp. induction evs as [|ev evs IH]; intros comp HInv; [done|].
  simpl. apply IH. by apply Inv_fire.
Qed.

(** With every change event raised by one of the form's controls, the key
    set of the form state stays the one it has. *)
Lemma keys_run evs comp :
  Inv comp → Forall known_field evs →
  dom (FormState comp) = dom initialState_literal →
  dom (FormState (run evs comp)) = dom initialState_literal.
Proof.
  revert comp. induction evs as [|ev evs IH]; intros comp HInv Hk Hd; [done|].
  apply Forall_cons in Hk as [Hev Hk]. simpl.
  apply IH; [by apply Inv_fire | done |].
  destruct ev as [e|e]; simpl in Hev.
  - rewrite FormState_fire_Change, dom_insert_L, Hd by done.
    apply set_eq. intros j. rewrite elem_of_union, elem_of_singleton.
    split; [intros [->|]; done | by right].
  - by rewrite FormState_fire_Submit.
Qed.

(** The console is handed the object the handlers hold as [formState]. *)
Lemma logged_handleSubmit w c e :
  logged (exec (handleSubmit c e) w) = logged w ++ [deref w (formState c)].
Proof.
  rewrite exec_handleSubmit. unfold logged; simpl.
  by rewrite omap_app.
Qed.

(** Number of [preventDefault] calls recorded in a trace. *)
Definition prevent_count (e : DOM.SubmitEvent) (t : list Effect) : nat :=
  length (filter (λ ef, ef = PreventDefault e) t).

(** ** Properties of the form state *)

(** Sample inputs used to exercise the statements below. *)
Definition sample_change : DOM.ChangeEvent :=
  {| DOM.target := {| DOM.id := "subject"; DOM.value := "Invoice error" |} |}.

Definition sample_stray_change : DOM.ChangeEvent :=
  {| DOM.target := {| DOM.id := "priority"; DOM.value := "high" |} |}.

Definition sample_submit : DOM.SubmitEvent := {| DOM.timeStamp := 7 |}.

Definition sample_edited : Component :=
  run [edit "issueType" "billing"; edit "message" "Please check"] mount.

Ltac by_evaluation := apply (bool_decide_unpack _); vm_compute; exact I.

(** C1. A field edit whose target is one of the keys of the initial state
    yields a form state equal to the previous one with the entry at that key
    replaced by the new value: the entry at the key is the new value, every
    other entry is as before, and the key set is the same. *)
Theorem handleChange_replaces_entry (comp : Component) (e : DOM.ChangeEvent) :
  Inv comp →
  DOM.id (DOM.target e) ∈ dom (InitialState comp) →
  let k := DOM.id (DOM.target e) in
  let v := DOM.value (DOM.target e) in
  let s := FormState comp in
  let s' := state_of (exec (handleChange (handlers comp) e) (world comp)) in
  s' = <[k := v]> s
  ∧ s' !! k = Some v
  ∧ (∀ j, j ≠ k → s' !! j = s !! j)
  ∧ dom s' = dom s.
Proof.
  intros HInv Hk k v s s'.
  assert (Hs' : s' = <[k := v]> s).
  { subst s' s k v. by rewrite state_after_handleChange, FormState_Inv. }
  rewrite Hs'. split_and!.
  - done.
  - apply lookup_insert_eq.
  - intros j Hj. by apply lookup_insert_ne.
  - rewrite dom_insert_L.
    assert (k ∈ dom s).
    { pose proof HInv as (_ & _ & _ & Hsub). apply Hsub.
      by rewrite <- (InitialState_Inv comp HInv). }
    apply set_eq. intros j. rewrite elem_of_union, elem_of_singleton.
    split; [intros [->|]; done | by right].
Qed.

Lemma handleChange_replaces_entry_witness :
  Inv sample_edited
  ∧ DOM.id (DOM.target sample_change) ∈ dom (InitialState sample_edited)
  ∧ state_of (exec (handleChange (handlers sample_edited) sample_change)
                   (world sample_edited))
    = <["subject" := "Invoice error"]> (FormState sample_edited).
Proof.
  assert (H1 : Inv sample_edited) by by_evaluation.
  assert (H2 : DOM.id (DOM.target sample_change) ∈ dom (InitialState sample_edited))
    by by_evaluation.
  split; [exact H1 | split; [exact H2 |]].
  exact (proj1 (handleChange_replaces_entry sample_edited sample_change H1 H2)).
Defined.

(** C2. Along every sequence of events in which each field edit targets a
    key of the initial state, the key set of the form state after each event
    is the key set of the initial state. *)
Theorem key_set_never_changes (evs : list Event) :
  Forall known_field evs →
  ∀ n, dom (FormState (run (take n evs) mount)) = dom (InitialState mount).
Proof.
  intros Hk n.
  rewrite (InitialState_Inv mount Inv_mount).
  apply keys_run; [apply Inv_mount | by apply Forall_take |].
  by rewrite FormState_mount.
Qed.

Lemma key_set_never_changes_witness :
  Forall known_field [edit "issueType" "billing"; Submit sample_submit;
                      edit "message" "Please check"]
  ∧ dom (FormState (run (take 2 [edit "issueType" "billing"; Submit sample_submit;
                                 edit "message" "Please check"]) mount))
    = dom (InitialState mount).
Proof.
  assert (H1 : Forall known_field [edit "issueType" "billing"; Submit sample_submit;
                                   edit "message" "Please check"]) by by_evaluation.
  split; [exact H1 |].
  exact (key_set_never_changes _ H1 2).
Defined.






(** C4. [handleSubmit] adds three effects to the trace, in this order: one
    [preventDefault] call on the event, the hand-off to the console of the
    form state as it is before the reset, and the call of [setFormState]
    with [initialState]. The event's [preventDefault] is called once, the
    form state is still the old one when the console has been called, and it
    is the initial state at the end. *)
Theorem handleSubmit_effect_order (comp : Component) (e : DOM.SubmitEvent) :
  Inv comp →
  let w := world comp in
  let c := handlers comp in
  let w' := exec (handleSubmit c e) w in
  trace w' = trace w ++ [PreventDefault e;
                         ConsoleLog (formState c) (FormState comp);
                         SetFormState (initialState c)]
  ∧ prevent_count e (trace w') = S (prevent_count e (trace w))
  ∧ state_of (exec (preventDefault e ;; console_log (formState c)) w) = FormState comp
  ∧ state_of w' = InitialState comp.
Proof.
  intros HInv w c w'. subst w' w c.
  rewrite exec_handleSubmit. cbn [trace].
  rewrite <- (FormState_Inv comp HInv). split_and!.
  - done.
  - unfold prevent_count. rewrite filter_app, length_app.
    rewrite filter_cons_True by done.
    rewrite filter_cons_False by done.
    rewrite filter_cons_False by done.
    simpl. lia.
  - done.
  - done.
Qed.

Lemma handleSubmit_effect_order_witness :
  Inv sample_edited
  ∧ trace (exec (handleSubmit (handlers sample_edited) sample_submit)
                (world sample_edited))
    = trace (world sample_edited)
      ++ [PreventDefault sample_submit;
          ConsoleLog (formState (handlers sample_edited)) (FormState sample_edited);
          SetFormState (initialState (handlers sample_edited))].
Proof.
  assert (H1 : Inv sample_edited) by by_evaluation.
  split; [exact H1 |].
  exact (proj1 (handleSubmit_effect_order sample_edited sample_submit H1)).
Defined.

(** C5. Two submissions in a row, with no edit in between, leave the same
    form state after the second as after the first: the initial state. *)
Theorem submit_twice_same_state (comp : Component) (e1 e2 : DOM.SubmitEvent) :
  Inv comp →
  FormState (fire (Submit e2) (fire (Submit e1) comp))
    = FormState (fire (Submit e1) comp)
  ∧ FormState (fire (Submit e1) comp) = InitialState comp
  ∧ FormState (fire (Submit e2) (fire (Submit e1) comp))
    = InitialState (fire (Submit e1) comp).
Proof.
  intros HInv.
  pose proof (Inv_fire comp HInv (Submit e1)) as HInv1.
  rewrite !FormState_fire_Submit by done.
  rewrite !InitialState_Inv by done. done.
Qed.

Lemma submit_twice_same_state_witness :
  Inv sample_edited
  ∧ FormState (fire (Submit sample_submit) (fire (Submit sample_submit) sample_edited))
    = FormState (fire (Submit sample_submit) sample_edited).
Proof.
  assert (H1 : Inv sample_edited) by by_evaluation.
  split; [exact H1 |].
  exact (proj1 (submit_twice_same_state sample_edited sample_submit sample_submit H1)).
Defined.

(** C6. [handleChange] leaves every object of the store as it is, the
    previous form-state object included, and passes [setFormState] a new
    object: a reference that was unused before and differs from the one the
    cell held. *)
Theorem handleChange_does_not_mutate (comp : Component) (e : DOM.ChangeEvent) :
  Inv comp →
  let w := world comp in
  let old := formState (handlers comp) in
  let w' := exec (handleChange (handlers comp) e) w in
  (∀ l o, heap w !! l = Some o → heap w' !! l = Some o)
  ∧ deref w' old = FormState comp
  ∧ hook w = Some old
  ∧ ∃ new, hook w' = Some new ∧ new ≠ old ∧ heap w !! new = None.
Proof.
  intros HInv w old w'.
  pose proof HInv as (Hh & [o Ho] & _ & _).
  pose proof (handleChange_keeps_objects w (handlers comp) e) as Hkeep.
  fold w' in Hkeep. fold w old in Hh, Ho.
  split_and!.
  - done.
  - rewrite (FormState_Inv comp HInv). fold w old. unfold deref.
    by rewrite (Hkeep old o Ho), Ho.
  - done.
  - exists (next_ref w). split_and!.
    + done.
    + intros Heq. pose proof (next_ref_unused w) as Hn.
      rewrite Heq, Ho in Hn. done.
    + apply next_ref_unused.
Qed.

Lemma handleChange_does_not_mutate_witness :
  Inv sample_edited
  ∧ deref (exec (handleChange (handlers sample_edited) sample_change)
                (world sample_edited))
          (formState (handlers sample_edited))
    = FormState sample_edited.
Proof.
  assert (H1 : Inv sample_edited) by by_evaluation.
  split; [exact H1 |].
  exact (proj1 (proj2 (handleChange_does_not_mutate sample_edited sample_change H1))).
Defined.

(** C7. The scenario of the specification: from the initial state
    [{issueType: '', subject: '', message: ''}], editing [issueType] to
    [billing] and then [subject] to [Invoice error] gives the two stated
    form states; the submission hands the console the second of them and
    the form state is the initial one again. *)
Theorem example_scenario (e : DOM.SubmitEvent) :
  let s0 := mount in
  let s1 := fire (edit "issueType" "billing") s0 in
  let s2 := fire (edit "subject" "Invoice error") s1 in
  let s3 := fire (Submit e) s2 in
  InitialState s0
    = {[ "issueType" := EmptyString; "subject" := EmptyString; "message" := EmptyString ]}
  ∧ FormState s0
    = {[ "issueType" := EmptyString; "subject" := EmptyString; "message" := EmptyString ]}
  ∧ FormState s1
    = {[ "issueType" := "billing"; "subject" := EmptyString; "message" := EmptyString ]}
  ∧ FormState s2
    = {[ "issueType" := "billing"; "subject" := "Invoice error"; "message" := EmptyString ]}
  ∧ logged (world s3)
    = [ {[ "issueType" := "billing"; "subject" := "Invoice error"; "message" := EmptyString ]} ]
  ∧ FormState s3
    = {[ "issueType" := EmptyString; "subject" := EmptyString; "message" := EmptyString ]}.
Proof. vm_compute. repeat split. Qed.

(** C8, as amended. [handleChange] with a field identifier that is not a
    key of the initial state still returns: the key set of the new form
    state is the previous one with the identifier added, the entry at the
    identifier is the supplied value, and every other entry is as before.
    When the identifier is not a key of the previous form state, every
    previous entry is unchanged and the new state differs from the previous
    one. When an earlier such edit has already added it, its entry is
    replaced, the key set is the same, and the form state is left with the
    same properties if the value is the one it had. *)
Theorem handleChange_adds_unknown_key (comp : Component) (e : DOM.ChangeEvent) :
  Inv comp →
  DOM.id (DOM.target e) ∉ dom (InitialState comp) →
  let k := DOM.id (DOM.target e) in
  let v := DOM.value (DOM.target e) in
  let s := FormState comp in
  let s' := state_of (exec (handleChange (handlers comp) e) (world comp)) in
  dom s' = dom s ∪ {[k]}
  ∧ s' !! k = Some v
  ∧ (∀ j, j ≠ k → s' !! j = s !! j)
  ∧ (k ∉ dom s → (∀ j, j ∈ dom s → s' !! j = s !! j) ∧ s' ≠ s)
  ∧ (k ∈ dom s → dom s' = dom s ∧ (s' = s ↔ s !! k = Some v)).
Proof.
  intros HInv _ k v s s'.
  assert (Hs' : s' = <[k := v]> s).
  { subst s' s k v. by rewrite state_after_handleChange, FormState_Inv. }
  rewrite Hs'. split_and!.
  - rewrite dom_insert_L. apply set_eq. intros j.
    rewrite !elem_of_union, elem_of_singleton. tauto.
  - apply lookup_insert_eq.
  - intros j Hj. by apply lookup_insert_ne.
  - intros Hk. split.
    + intros j Hj. apply lookup_insert_ne. by intros <-.
    + intros Heq. apply Hk. rewrite <- Heq, dom_insert_L.
      apply elem_of_union. left. by apply elem_of_singleton.
  - intros Hk. split.
    + rewrite dom_insert_L. apply set_eq. intros j.
      rewrite elem_of_union, elem_of_singleton.
      split; [intros [->|]; done | by right].
    + split.
      * intros Heq. rewrite <- Heq. apply lookup_insert_eq.
      * apply insert_id.
Qed.

Lemma handleChange_adds_unknown_key_witness :
  Inv sample_edited
  ∧ (DOM.id (DOM.target sample_stray_change) ∉ dom (InitialState sample_edited))
  ∧ dom (state_of (exec (handleChange (handlers sample_edited) sample_stray_change)
                        (world sample_edited)))
    = dom (FormState sample_edited) ∪ {["priority"]}.
Proof.
  assert (H1 : Inv sample_edited) by by_evaluation.
  assert (H2 : DOM.id (DOM.target sample_stray_change) ∉ dom (InitialState sample_edited))
    by by_evaluation.
  split; [exact H1 | split; [exact H2 |]].
  exact (proj1 (handleChange_adds_unknown_key sample_edited sample_stray_change H1 H2)).
Defined.

(** A form that has already handled the edit [priority := high]. *)
Definition sample_strayed : Component := fire (Change sample_stray_change) mount.

Definition sample_stray_again : DOM.ChangeEvent :=
  {| DOM.target := {| DOM.id := "priority"; DOM.value := "low" |} |}.

(** The identifier [priority] is not a key of the initial state, yet on a
    form that has handled [priority := high] before, the same edit leaves
    the form state with the properties it had, and the edit
    [priority := low] changes an entry that existed. *)
Lemma handleChange_unknown_key_already_present :
  Inv sample_strayed
  ∧ (DOM.id (DOM.target sample_stray_change) ∉ dom (InitialState sample_strayed))
  ∧ (DOM.id (DOM.target sample_stray_again) ∉ dom (InitialState sample_strayed))
  ∧ state_of (exec (handleChange (handlers sample_strayed) sample_stray_change)
                   (world sample_strayed))
    = FormState sample_strayed
  ∧ ¬ (∀ j, j ∈ dom (FormState sample_strayed) →
            state_of (exec (handleChange (handlers sample_strayed) sample_stray_again)
                           (world sample_strayed)) !! j
            = FormState sample_strayed !! j).
Proof.
  split_and!; [by_evaluation | by_evaluation | by_evaluation | by_evaluation |].
  intros H. specialize (H "priority").
  assert (Hin : "priority" ∈ dom (FormState sample_strayed)) by by_evaluation.
  specialize (H Hin). revert H. by_evaluation.
Qed.

(** C9. Edits of two distinct fields commute: handling them in either order
    gives the same form state. *)
Theorem edits_of_distinct_fields_commute
    (comp : Component) (e1 e2 : DOM.ChangeEvent) :
  Inv comp →
  DOM.id (DOM.target e1) ≠ DOM.id (DOM.target e2) →
  FormState (fire (Change e2) (fire (Change e1) comp))
    = FormState (fire (Change e1) (fire (Change e2) comp)).
Proof.
  intros HInv Hne.
  rewrite !FormState_fire_Change by (done || by apply Inv_fire).
  by apply insert_insert_ne.
Qed.

Lemma edits_of_distinct_fields_commute_witness :
  Inv sample_edited
  ∧ DOM.id (DOM.target sample_change) ≠ DOM.id (DOM.target sample_stray_change)
  ∧ FormState (fire (Change sample_stray_change) (fire (Change sample_change) sample_edited))
    = FormState (fire (Change sample_change) (fire (Change sample_stray_change) sample_edited)).
Proof.
  assert (H1 : Inv sample_edited) by by_evaluation.
  assert (H2 : DOM.id (DOM.target sample_change) ≠ DOM.id (DOM.target sample_stray_change))
    by by_evaluation.
  split; [exact H1 | split; [exact H2 |]].
  exact (edits_of_distinct_fields_commute sample_edited sample_change
           sample_stray_change H1 H2).
Defined.

(** C10. The outcome of a handler depends only on the form state and the
    event data: from two components with equal form states, [handleChange]
    with equal field identifier and value gives equal form states, and
    [handleSubmit] hands the console equal objects and gives equal form
    states. *)
Theorem handlers_are_deterministic (comp1 comp2 : Component) :
  Inv comp1 → Inv comp2 →
  FormState comp1 = FormState comp2 →
  (∀ e1 e2 : DOM.ChangeEvent,
      DOM.id (DOM.target e1) = DOM.id (DOM.target e2) →
      DOM.value (DOM.target e1) = DOM.value (DOM.target e2) →
      state_of (exec (handleChange (handlers comp1) e1) (world comp1))
        = state_of (exec (handleChange (handlers comp2) e2) (world comp2)))
  ∧ (∀ e1 e2 : DOM.SubmitEvent,
      let w1 := exec (handleSubmit (handlers comp1) e1) (world comp1) in
      let w2 := exec (handleSubmit (handlers comp2) e2) (world comp2) in
      (∃ o, logged w1 = logged (world comp1) ++ [o]
            ∧ logged w2 = logged (world comp2) ++ [o])
      ∧ state_of w1 = state_of w2).
Proof.
  intros HInv1 HInv2 Heq. split.
  - intros e1 e2 Hid Hval.
    rewrite !state_after_handleChange, <- !FormState_Inv by done.
    by rewrite Hid, Hval, Heq.
  - intros e1 e2 w1 w2. subst w1 w2. split.
    + exists (FormState comp1). rewrite !logged_handleSubmit.
      rewrite <- !FormState_Inv by done. by rewrite Heq.
    + rewrite !state_after_handleSubmit.
      fold (InitialState comp1) (InitialState comp2).
      by rewrite !InitialState_Inv.
Qed.

Lemma handlers_are_deterministic_witness :
  Inv mount
  ∧ Inv (run [Submit sample_submit] mount)
  ∧ FormState mount = FormState (run [Submit sample_submit] mount)
  ∧ state_of (exec (handleChange (handlers mount) sample_change) (world mount))
    = state_of (exec (handleChange (handlers (run [Submit sample_submit] mount))
                                   sample_change)
                     (world (run [Submit sample_submit] mount))).
Proof.
  assert (H1 : Inv mount) by by_evaluation.
  assert (H2 : Inv (run [Submit sample_submit] mount)) by by_evaluation.
  assert (H3 : FormState mount = FormState (run [Submit sample_submit] mount))
    by by_evaluation.
  split; [exact H1 | split; [exact H2 | split; [exact H3 |]]].
  exact (proj1 (handlers_are_deterministic _ _ H1 H2 H3)
           sample_change sample_change eq_refl eq_refl).
Defined.

(** ** Further properties of the component *)

(** *** The object store *)

Lemma heap_App_keeps w l o :
  heap w !! l = Some o → heap (App w).2 !! l = Some o.
Proof.
  intros Hl. unfold App, mbind, M_bind, new_object, useState; simpl.
  pose proof (next_ref_unused w) as Hn. unfold next_ref in Hn.
  destruct (hook w); simpl;
    (rewrite lookup_insert_ne; [done|]; intros <-; by rewrite Hn in Hl).
Qed.

Lemma trace_App w : trace (App w).2 = trace w.
Proof.
  unfold App, mbind, M_bind, new_object, useState; simpl.
  by destruct (hook w).
Qed.

Lemma heap_handle_keeps ev c w l o :
  heap w !! l = Some o → heap (exec (handle ev c) w) !! l = Some o.
Proof.
  destruct ev as [e|e]; cbn [handle].
  - apply handleChange_keeps_objects.
  - by rewrite exec_handleSubmit.
Qed.

Lemma heap_fire_keeps ev comp l o :
  heap (world comp) !! l = Some o → heap (world (fire ev comp)) !! l = Some o.
Proof.
  intros Hl. unfold fire, rendered; simpl.
  by apply heap_App_keeps, heap_handle_keeps.
Qed.

(** X1. No event ever changes or removes an object of the store: whatever
    properties an object has, it has them after any sequence of events. *)
Theorem store_objects_are_immutable (evs : list Event) (comp : Component) l o :
  heap (world comp) !! l = Some o →
  heap (world (run evs comp)) !! l = Some o.
Proof.
  revert comp. induction evs as [|ev evs IH]; intros comp Hl; [done|].
  simpl. by apply IH, heap_fire_keeps.
Qed.

Lemma store_objects_are_immutable_witness :
  heap (world mount) !! formState (handlers mount) = Some initialState_literal
  ∧ heap (world (run [edit "subject" "Hello"; Submit sample_submit] mount))
      !! formState (handlers mount) = Some initialState_literal.
Proof.
  assert (H1 : heap (world mount) !! formState (handlers mount)
               = Some initialState_literal) by by_evaluation.
  split; [exact H1 |].
  exact (store_objects_are_immutable _ mount _ _ H1).
Defined.

(** *** What the console was handed *)

(** Every object handed to the console still has the properties it had
    when it was handed over. *)
Definition log_accurate (w : World) : Prop :=
  ∀ l o, ConsoleLog l o ∈ trace w → heap w !! l = Some o.

Lemma log_accurate_fire ev comp :
  Inv comp → log_accurate (world comp) → log_accurate (world (fire ev comp)).
Proof.
  intros HInv Hlog l o Hin.
  pose proof HInv as (_ & [s Hs] & _ & _).
  unfold fire, rendered in *; simpl in *.
  rewrite trace_App in Hin. apply heap_App_keeps.
  destruct ev as [e|e]; cbn [handle] in *.
  - apply handleChange_keeps_objects. apply Hlog.
    rewrite exec_handleChange in Hin; simpl in Hin.
    apply elem_of_app in Hin as [Hin|Hin]; [done|].
    apply list_elem_of_singleton in Hin. discriminate.
  - rewrite exec_handleSubmit in *; simpl in *.
    apply elem_of_app in Hin as [Hin|Hin]; [by apply Hlog|].
    rewrite !elem_of_cons in Hin.
    destruct Hin as [Hin|[Hin|[Hin|Hin]]]; try discriminate.
    + injection Hin as -> ->. unfold deref. by rewrite Hs.
    + by apply elem_of_nil in Hin.
Qed.

(** X2. Whatever events follow, each object that a submission handed to the
    console keeps the properties it was logged with: a console that shows
    the live object shows the submitted values. *)
Theorem logged_objects_stay_as_logged (evs : list Event) l o :
  ConsoleLog l o ∈ trace (world (run evs mount)) →
  heap (world (run evs mount)) !! l = Some o.
Proof.
  assert (Hgen : ∀ comp, Inv comp → log_accurate (world comp) →
                         log_accurate (world (run evs comp))).
  { induction evs as [|ev evs IH]; intros comp HInv Hlog; [done|].
    simpl. apply IH; [by apply Inv_fire | by apply log_accurate_fire]. }
  apply Hgen; [apply Inv_mount |].
  intros l' o' Hin. vm_compute in Hin. by apply elem_of_nil in Hin.
Qed.

Lemma logged_objects_stay_as_logged_witness :
  ConsoleLog 2%positive {[ "issueType" := EmptyString; "subject" := "Hello";
                           "message" := EmptyString ]}
    ∈ trace (world (run [edit "subject" "Hello"; Submit sample_submit;
                         edit "subject" "Again"] mount))
  ∧ heap (world (run [edit "subject" "Hello"; Submit sample_submit;
                      edit "subject" "Again"] mount)) !! 2%positive
    = Some {[ "issueType" := EmptyString; "subject" := "Hello";
              "message" := EmptyString ]}.
Proof.
  assert (H1 : ConsoleLog 2%positive {[ "issueType" := EmptyString; "subject" := "Hello";
                                        "message" := EmptyString ]}
               ∈ trace (world (run [edit "subject" "Hello"; Submit sample_submit;
                                    edit "subject" "Again"] mount)))
    by by_evaluation.
  split; [exact H1 |].
  exact (logged_objects_stay_as_logged _ _ _ H1).
Defined.

(** *** How edits compose *)

(** X3. Two edits of the same field in a row: the later value replaces the
    earlier one, and the form state is the one the later edit alone would
    give. *)
Theorem later_edit_of_a_field_wins (comp : Component) (e1 e2 : DOM.ChangeEvent) :
  Inv comp →
  DOM.id (DOM.target e1) = DOM.id (DOM.target e2) →
  FormState (fire (Change e2) (fire (Change e1) comp))
    = FormState (fire (Change e2) comp).
Proof.
  intros HInv Hid.
  rewrite !FormState_fire_Change by (done || by apply Inv_fire).
  rewrite Hid. apply insert_insert_eq.
Qed.

Lemma later_edit_of_a_field_wins_witness :
  Inv sample_edited
  ∧ DOM.id (DOM.target sample_change)
    = DOM.id (DOM.target {| DOM.target := {| DOM.id := "subject"; DOM.value := "Refund" |} |})
  ∧ FormState (fire (edit "subject" "Refund") (fire (Change sample_change) sample_edited))
    = FormState (fire (edit "subject" "Refund") sample_edited).
Proof.
  assert (H1 : Inv sample_edited) by by_evaluation.
  split; [exact H1 | split; [reflexivity |]].
  exact (later_edit_of_a_field_wins sample_edited sample_change
           {| DOM.target := {| DOM.id := "subject"; DOM.value := "Refund" |} |}
           H1 eq_refl).
Defined.

(** X4. An edit that gives a field the value it already has leaves the
    properties of the form state as they are, yet the cell holds another
    object than before: the state changes by identity, not by content. *)
Theorem edit_to_current_value (comp : Component) (e : DOM.ChangeEvent) :
  Inv comp →
  FormState comp !! DOM.id (DOM.target e) = Some (DOM.value (DOM.target e)) →
  FormState (fire (Change e) comp) = FormState comp
  ∧ hook (world (fire (Change e) comp)) ≠ hook (world comp).
Proof.
  intros HInv Hcur. split.
  - rewrite FormState_fire_Change by done. by apply insert_id.
  - pose proof HInv as (Hh & [s Hs] & _ & _).
    unfold fire, rendered; cbn [handle world handlers fst snd].
    rewrite (exec_App_mounted _ (next_ref (world comp))) by done.
    cbn [hook]. rewrite Hh. intros [= Heq].
    pose proof (next_ref_unused (world comp)) as Hn.
    by rewrite Heq, Hs in Hn.
Qed.

Lemma edit_to_current_value_witness :
  Inv sample_edited
  ∧ FormState sample_edited !! "issueType" = Some "billing"
  ∧ FormState (fire (edit "issueType" "billing") sample_edited) = FormState sample_edited.
Proof.
  assert (H1 : Inv sample_edited) by by_evaluation.
  assert (H2 : FormState sample_edited !! "issueType" = Some "billing") by by_evaluation.
  split; [exact H1 | split; [exact H2 |]].
  exact (proj1 (edit_to_current_value sample_edited
                  {| DOM.target := {| DOM.id := "issueType"; DOM.value := "billing" |} |}
                  H1 H2)).
Defined.

(** X5. A field keeps its entry through any sequence of events that holds
    no submission and no edit of that field; so a value typed into a field
    stays until that field is edited again or the form is submitted. *)
Theorem field_kept_until_edited_or_submitted
    (evs : list Event) (comp : Component) (k : string) :
  Inv comp →
  Forall (λ ev, is_submit ev = false ∧ targets k ev = false) evs →
  FormState (run evs comp) !! k = FormState comp !! k
  ∧ ∀ v, FormState (run evs (fire (edit k v) comp)) !! k = Some v.
Proof.
  intros HInv Hevs.
  assert (Hgen : ∀ c, Inv c → FormState (run evs c) !! k = FormState c !! k).
  { clear comp HInv. induction Hevs as [|ev evs [Hs Ht] _ IH]; intros c Hc; [done|].
    simpl. rewrite IH by by apply Inv_fire.
    destruct ev as [e|e]; [|done].
    rewrite FormState_fire_Change by done.
    apply lookup_insert_ne. simpl in Ht.
    by apply bool_decide_eq_false in Ht. }
  split; [by apply Hgen|].
  intros v. rewrite Hgen by by apply Inv_fire.
  unfold edit. rewrite FormState_fire_Change by done. apply lookup_insert_eq.
Qed.

Lemma field_kept_until_edited_or_submitted_witness :
  Inv mount
  ∧ Forall (λ ev, is_submit ev = false ∧ targets "subject" ev = false)
      [edit "issueType" "outage"; edit "message" "No signal"; edit "issueType" "cancel"]
  ∧ FormState (run [edit "issueType" "outage"; edit "message" "No signal";
                    edit "issueType" "cancel"]
                 (fire (edit "subject" "Hello") mount)) !! "subject" = Some "Hello".
Proof.
  assert (H1 : Inv mount) by by_evaluation.
  assert (H2 : Forall (λ ev, is_submit ev = false ∧ targets "subject" ev = false)
                 [edit "issueType" "outage"; edit "message" "No signal";
                  edit "issueType" "cancel"]) by by_evaluation.
  split; [exact H1 | split; [exact H2 |]].
  exact (proj2 (field_kept_until_edited_or_submitted _ mount "subject" H1 H2) "Hello").
Defined.

(** *** Sequences of events *)

Lemma logged_fire ev comp :
  Inv comp →
  logged (world (fire ev comp))
    = logged (world comp) ++ (if is_submit ev then [FormState comp] else []).
Proof.
  intros HInv. unfold fire, rendered, logged; simpl. rewrite trace_App.
  destruct ev as [e|e]; cbn [handle is_submit].
  - rewrite exec_handleChange; simpl. by rewrite omap_app.
  - rewrite exec_handleSubmit; simpl.
    by rewrite omap_app, (FormState_Inv comp HInv).
Qed.

(** Two consistent components with the same form state go through the same
    form states and hand the console the same objects. *)
Lemma run_agree evs c1 c2 :
  Inv c1 → Inv c2 → FormState c1 = FormState c2 →
  FormState (run evs c1) = FormState (run evs c2)
  ∧ ∃ out, logged (world (run evs c1)) = logged (world c1) ++ out
           ∧ logged (world (run evs c2)) = logged (world c2) ++ out.
Proof.
  revert c1 c2. induction evs as [|ev evs IH]; intros c1 c2 H1 H2 Heq.
  - split; [done|]. exists []. by rewrite !app_nil_r.
  - simpl.
    assert (Hs : FormState (fire ev c1) = FormState (fire ev c2)).
    { destruct ev as [e|e].
      + rewrite !FormState_fire_Change by done. by rewrite Heq.
      + by rewrite !FormState_fire_Submit. }
    destruct (IH (fire ev c1) (fire ev c2)) as (Hst & out & Ho1 & Ho2);
      [by apply Inv_fire | by apply Inv_fire | done |].
    split; [done|].
    exists ((if is_submit ev then [FormState c1] else []) ++ out).
    rewrite Ho1, Ho2, !logged_fire by done.
    by rewrite Heq, !app_assoc.
Qed.

(** X6. A submission forgets what came before it: from then on the form
    goes through the same form states, and hands the console the same
    objects, as a form that has just been mounted. *)
Theorem submit_starts_afresh (comp : Component) (e : DOM.SubmitEvent)
    (evs : list Event) :
  Inv comp →
  FormState (run evs (fire (Submit e) comp)) = FormState (run evs mount)
  ∧ logged (world (run evs (fire (Submit e) comp)))
    = logged (world (fire (Submit e) comp)) ++ logged (world (run evs mount)).
Proof.
  intros HInv.
  destruct (run_agree evs (fire (Submit e) comp) mount) as (Hst & out & Ho1 & Ho2).
  - by apply Inv_fire.
  - apply Inv_mount.
  - by rewrite FormState_fire_Submit, FormState_mount.
  - split; [done|]. by rewrite Ho1, Ho2.
Qed.

Lemma submit_starts_afresh_witness :
  Inv sample_edited
  ∧ FormState (run [edit "subject" "Hello"] (fire (Submit sample_submit) sample_edited))
    = FormState (run [edit "subject" "Hello"] mount).
Proof.
  assert (H1 : Inv sample_edited) by by_evaluation.
  split; [exact H1 |].
  exact (proj1 (submit_starts_afresh sample_edited sample_submit
                  [edit "subject" "Hello"] H1)).
Defined.

#[export] Instance Element_eq_dec : EqDecision DOM.Element.
Proof. solve_decision. Defined.

#[export] Instance ChangeEvent_eq_dec : EqDecision DOM.ChangeEvent.
Proof. solve_decision. Defined.

#[export] Instance Event_eq_dec : EqDecision Event.
Proof. solve_decision. Defined.

(** The call an effect records, without the objects passed. *)
Inductive Call :=
| CallPreventDefault (e : DOM.SubmitEvent)
| CallConsoleLog
| CallSetFormState.

Definition call_of (ef : Effect) : Call :=
  match ef with
  | PreventDefault e => CallPreventDefault e
  | ConsoleLog _ _ => CallConsoleLog
  | SetFormState _ => CallSetFormState
  end.

(** The calls one event leads to: line 20 for an edit, lines 14-16 for a
    submission. *)
Definition calls_for (ev : Event) : list Call :=
  match ev with
  | Change _ => [CallSetFormState]
  | Submit e => [CallPreventDefault e; CallConsoleLog; CallSetFormState]
  end.

Lemma trace_fire ev comp :
  trace (world (fire ev comp))
  = trace (world comp)
    ++ match ev with
       | Change _ => [SetFormState (next_ref (world comp))]
       | Submit e =>
           [PreventDefault e;
            ConsoleLog (formState (handlers comp))
              (deref (world comp) (formState (handlers comp)));
            SetFormState (initialState (handlers comp))]
       end.
Proof.
  unfold fire, rendered; simpl. rewrite trace_App.
  destruct ev as [e|e]; cbn [handle].
  - by rewrite exec_handleChange.
  - by rewrite exec_handleSubmit.
Qed.

(** X7. Over any sequence of events the calls the component makes are, in
    the order of the events: for an edit one [setFormState] call and nothing
    else; for a submission [preventDefault] on that very event, then
    [console.log], then [setFormState]. A render adds no call. So
    [preventDefault] is called on an event once for each time it is
    submitted, the trace grows by one effect per event plus two per
    submission, and the console receives one object per submission. *)
Theorem effects_per_event (evs : list Event) (comp : Component) :
  call_of <$> trace (world (run evs comp))
    = (call_of <$> trace (world comp)) ++ concat (calls_for <$> evs)
  ∧ (∀ e, prevent_count e (trace (world (run evs comp)))
          = prevent_count e (trace (world comp))
            + length (filter (λ ev, ev = Submit e) evs))
  ∧ length (trace (world (run evs comp)))
    = length (trace (world comp)) + length evs
      + 2 * length (filter (λ ev, is_submit ev = true) evs)
  ∧ length (logged (world (run evs comp)))
    = length (logged (world comp)) + length (filter (λ ev, is_submit ev = true) evs).
Proof.
  revert comp. induction evs as [|ev evs IH]; intros comp.
  - simpl. rewrite app_nil_r. split_and!; (done || intros; lia || lia).
  - destruct (IH (fire ev comp)) as (Hc & Hp & Ht & Hl).
    pose proof (trace_fire ev comp) as Hfire.
    cbn [run foldl]. fold (run evs (fire ev comp)).
    split_and!.
    + rewrite Hc, Hfire, fmap_app, <- app_assoc. f_equal.
      by destruct ev.
    + intros e. rewrite Hp. unfold prevent_count.
      rewrite Hfire, filter_app, length_app.
      destruct ev as [e'|e'].
      * rewrite (filter_cons_False _ (Change e')) by done.
        rewrite (filter_cons_False _ (SetFormState _)) by done. simpl. lia.
      * destruct (decide (e' = e)) as [->|Hne].
        -- rewrite (filter_cons_True _ (PreventDefault e)) by done.
           rewrite (filter_cons_False _ (ConsoleLog _ _)) by done.
           rewrite (filter_cons_False _ (SetFormState _)) by done.
           rewrite (filter_cons_True _ (Submit e)) by done. simpl. lia.
        -- rewrite (filter_cons_False _ (PreventDefault e')) by congruence.
           rewrite (filter_cons_False _ (ConsoleLog _ _)) by done.
           rewrite (filter_cons_False _ (SetFormState _)) by done.
           rewrite (filter_cons_False _ (Submit e')) by congruence. simpl. lia.
    + rewrite Ht, Hfire, length_app.
      destruct ev as [e|e].
      * rewrite filter_cons_False by done. simpl. lia.
      * rewrite filter_cons_True by done. simpl. lia.
    + rewrite Hl. unfold logged. rewrite Hfire, omap_app, length_app.
      destruct ev as [e|e].
      * rewrite filter_cons_False by done. simpl. lia.
      * rewrite filter_cons_True by done. simpl. lia.
Qed.

(** *** The rendered form *)

(** Each control is bound to the entry of the form state at its id. *)
Lemma shown_view (s : JSObject) (k : string) :
  shown (view s) k
  = if decide (k ∈ ["issueType"; "subject"; "message"]) then s !! k else None.
Proof.
  unfold shown, view; cbn [children list_find control_id].
  repeat (case_decide; simplify_eq; cbn [fmap option_fmap option_map mbind option_bind
                                          control_value snd prod_map]).
  all: try done.
  all: exfalso.
  all: match goal with
       | H : _ ∉ _ |- _ => apply H; rewrite !elem_of_cons; tauto
       | H : _ ∈ _ |- _ =>
           rewrite !elem_of_cons, elem_of_nil in H;
           destruct H as [->|[->|[->|[]]]]; congruence
       end.
Qed.

Lemma initial_keys (k : string) :
  k ∈ dom initialState_literal ↔ k ∈ ["issueType"; "subject"; "message"].
Proof.
  unfold initialState_literal.
  rewrite !dom_insert_L, dom_singleton_L, !elem_of_union, !elem_of_singleton,
    !elem_of_cons, elem_of_nil.
  tauto.
Qed.

Lemma render_view_Inv comp : Inv comp → render_view comp = view (FormState comp).
Proof. intros HInv. unfold render_view. by rewrite <- FormState_Inv. Qed.

Lemma Inv_entry comp k :
  Inv comp → k ∈ dom initialState_literal → is_Some (FormState comp !! k).
Proof. intros (_ & _ & _ & Hsub) Hk. by apply elem_of_dom, Hsub. Qed.

(** X8. After any sequence of events, stray ones included, every control of
    the rendered form is bound to a defined value, the entry of the form
    state at the control's id: no control ever becomes uncontrolled. *)
Theorem controls_stay_controlled (evs : list Event) :
  Forall controlled (children (render_view (run evs mount)))
  ∧ ∀ k, k ∈ dom initialState_literal →
         shown (render_view (run evs mount)) k = FormState (run evs mount) !! k
         ∧ is_Some (shown (render_view (run evs mount)) k).
Proof.
  pose proof (Inv_run evs mount Inv_mount) as HInv.
  rewrite render_view_Inv by done.
  assert (Hs : ∀ k, k ∈ dom initialState_literal →
                    is_Some (FormState (run evs mount) !! k))
    by (intros k; by apply Inv_entry).
  split.
  - unfold view; cbn [children].
    repeat apply Forall_cons_2; try apply Forall_nil_2;
      unfold controlled; cbn [control_id control_value]; try done;
      apply Hs, initial_keys; rewrite !elem_of_cons; tauto.
  - intros k Hk. rewrite shown_view.
    rewrite decide_True by by apply initial_keys.
    split; [done | by apply Hs].
Qed.

Lemma raises_change_view s e :
  Exists (λ n, raises_change n e) (children (view s)) →
  DOM.id (DOM.target e) ∈ ["issueType"; "subject"; "message"].
Proof.
  unfold view; cbn [children].
  rewrite !Exists_cons, Exists_nil; cbn [raises_change].
  rewrite !elem_of_cons. intros H.
  decompose [or and] H; try done;
    match goal with Heq : DOM.id _ = _ |- _ => rewrite Heq end; auto.
Qed.

(** X9. Typing into a control, or choosing an option: once the component
    has rendered again, that control shows the value of the event and every
    other control of the form shows what it showed before. *)
Theorem control_shows_what_was_entered (comp : Component) (e : DOM.ChangeEvent) :
  Inv comp →
  raises (render_view comp) (Change e) →
  shown (render_view (fire (Change e) comp)) (DOM.id (DOM.target e))
    = Some (DOM.value (DOM.target e))
  ∧ ∀ k, k ≠ DOM.id (DOM.target e) →
         shown (render_view (fire (Change e) comp)) k = shown (render_view comp) k.
Proof.
  intros HInv Hr.
  rewrite !render_view_Inv, FormState_fire_Change by (done || by apply Inv_fire).
  cbn [raises] in Hr. apply raises_change_view in Hr.
  split.
  - rewrite shown_view, decide_True by done. apply lookup_insert_eq.
  - intros k Hk. rewrite !shown_view.
    case_decide; [|done]. by apply lookup_insert_ne.
Qed.

Lemma control_shows_what_was_entered_witness :
  Inv sample_edited
  ∧ raises (render_view sample_edited) (Change sample_change)
  ∧ shown (render_view (fire (Change sample_change) sample_edited)) "subject"
    = Some "Invoice error".
Proof.
  assert (H1 : Inv sample_edited) by by_evaluation.
  assert (H2 : raises (render_view sample_edited) (Change sample_change))
    by by_evaluation.
  split; [exact H1 | split; [exact H2 |]].
  exact (proj1 (control_shows_what_was_entered sample_edited sample_change H1 H2)).
Defined.

(** X10. After a submission the [value] attribute of every control of the
    rendered form is the empty string. For the [select] this is the value
    of none of its options. The statement is about the attribute the
    component passes, not about what a browser displays for it. *)
Theorem controls_empty_after_submit (comp : Component) (e : DOM.SubmitEvent) :
  Inv comp →
  Forall (λ n, is_Some (control_id n) →
               control_value n = Some EmptyString
               ∧ EmptyString ∉ option_values n)
         (children (render_view (fire (Submit e) comp))).
Proof.
  intros HInv.
  rewrite render_view_Inv, FormState_fire_Submit by (done || by apply Inv_fire).
  by_evaluation.
Qed.

Lemma controls_empty_after_submit_witness :
  Inv sample_edited
  ∧ Forall (λ n, is_Some (control_id n) →
                 control_value n = Some EmptyString
                 ∧ EmptyString ∉ option_values n)
           (children (render_view (fire (Submit sample_submit) sample_edited))).
Proof.
  assert (H1 : Inv sample_edited) by by_evaluation.
  split; [exact H1 |].
  exact (controls_empty_after_submit sample_edited sample_submit H1).
Defined.

(** *** Events raised by the form itself *)

Lemma raises_known s ev : raises (view s) ev → known_field ev.
Proof.
  destruct ev as [e|e]; [|done]. cbn [raises known_field].
  intros Hr. apply initial_keys. by apply (raises_change_view s).
Qed.

Lemma driven_known evs comp : driven evs comp → Forall known_field evs.
Proof.
  revert comp. induction evs as [|ev evs IH]; intros comp; [done|].
  cbn [driven]. intros [Hr Hd]. apply Forall_cons. split.
  - unfold render_view in Hr. by apply raises_known in Hr.
  - by apply (IH _ Hd).
Qed.

Lemma driven_take n evs comp : driven evs comp → driven (take n evs) comp.
Proof.
  revert n comp. induction evs as [|ev evs IH]; intros [|n] comp; try done.
  cbn [driven take]. intros [Hr Hd]. split; [done | by apply IH].
Qed.

(** X11. The ids of the three controls are the keys of [initialState]: as
    long as every event is one the rendered form raises, the key set of the
    form state is, after each event, the key set of the initial state. *)
Theorem form_events_keep_key_set (evs : list Event) :
  driven evs mount →
  ∀ n, dom (FormState (run (take n evs) mount)) = dom initialState_literal.
Proof.
  intros Hd n. apply keys_run.
  - apply Inv_mount.
  - by apply (driven_known _ mount), driven_take.
  - by rewrite FormState_mount.
Qed.

Lemma form_events_keep_key_set_witness :
  driven [edit "issueType" "outage"; edit "message" "No signal"; Submit sample_submit;
          edit "subject" "Hello"] mount
  ∧ dom (FormState (run (take 4 [edit "issueType" "outage"; edit "message" "No signal";
                                 Submit sample_submit; edit "subject" "Hello"]) mount))
    = dom initialState_literal.
Proof.
  assert (H1 : driven [edit "issueType" "outage"; edit "message" "No signal";
                       Submit sample_submit; edit "subject" "Hello"] mount)
    by by_evaluation.
  split; [exact H1 |].
  exact (form_events_keep_key_set _ H1 4).
Defined.

(** The value a [select] is bound to is the empty string or the value of
    one of its options. *)
Definition select_in_range (n : Node) : Prop :=
  match n with
  | select _ _ v opts => ∃ x, v = Some x ∧ (x = EmptyString ∨ x ∈ opts.*1)
  | _ => True
  end.

Lemma select_in_range_view s :
  Forall select_in_range (children (view s))
  ↔ ∃ x, s !! "issueType" = Some x
         ∧ (x = EmptyString ∨ x ∈ ["default"; "outage"; "billing"; "cancel"]).
Proof.
  unfold view; cbn [children]. split.
  - intros H. apply Forall_cons in H as [_ H]. by apply Forall_cons in H as [H _].
  - intros H. repeat apply Forall_cons_2; try apply Forall_nil_2; done.
Qed.

(** X12. As long as every event is one the rendered form raises, the
    [select] is bound to the empty string or to the value of one of its own
    options. *)
Theorem select_value_in_range (evs : list Event) :
  driven evs mount →
  Forall select_in_range (children (render_view (run evs mount))).
Proof.
  assert (Hgen : ∀ comp, Inv comp →
            Forall select_in_range (children (render_view comp)) →
            driven evs comp →
            Forall select_in_range (children (render_view (run evs comp)))).
  { induction evs as [|ev evs IH]; intros comp HInv Hsel Hd; [done|].
    cbn [driven] in Hd. destruct Hd as [Hr Hd].
    cbn [run foldl]. fold (run evs (fire ev comp)).
    apply IH; [by apply Inv_fire | | done].
    rewrite render_view_Inv in * by (done || by apply Inv_fire).
    apply select_in_range_view. apply select_in_range_view in Hsel.
    destruct ev as [e|e].
    - rewrite FormState_fire_Change by done.
      cbn [raises] in Hr. unfold view in Hr; cbn [children] in Hr.
      rewrite !Exists_cons, Exists_nil in Hr; cbn [raises_change] in Hr.
      decompose [or and] Hr; try done;
        match goal with Heq : DOM.id _ = _ |- _ => rewrite Heq end.
      + rewrite lookup_insert_eq. eexists; split; [done|]. by right.
      + by rewrite lookup_insert_ne.
      + by rewrite lookup_insert_ne.
    - rewrite FormState_fire_Submit by done.
      exists EmptyString. split; [done | by left]. }
  intros Hd. apply Hgen; [apply Inv_mount | | done].
  rewrite render_view_Inv, FormState_mount by apply Inv_mount.
  apply select_in_range_view. exists EmptyString. split; [done | by left].
Qed.

Lemma select_value_in_range_witness :
  driven [edit "issueType" "outage"; edit "message" "No signal"] mount
  ∧ Forall select_in_range
      (children (render_view (run [edit "issueType" "outage";
                                   edit "message" "No signal"] mount))).
Proof.
  assert (H1 : driven [edit "issueType" "outage"; edit "message" "No signal"] mount)
    by by_evaluation.
  split; [exact H1 |].
  exact (select_value_in_range _ H1).
Defined.

(** *** Renders and object identity *)

Lemma App_unmounted w :
  hook w = None →
  App w = ({| initialState := next_ref w; formState := next_ref w |},
           {| heap := <[next_ref w := initialState_literal]> (heap w);
              hook := Some (next_ref w);
              trace := trace w |}).
Proof.
  intros Hn. unfold App, mbind, M_bind, new_object, useState; simpl.
  by rewrite Hn.
Qed.

(** X13. [initialState] is created anew by every render. Once an edit has
    been handled, the [initialState] object the handlers hold is another
    object than the one in the cell, so a submission stores a reference
    different from the current one: the state changes by identity even when
    the edit left the form empty. *)
Theorem submit_stores_another_object
    (comp : Component) (e0 : DOM.ChangeEvent) (e : DOM.SubmitEvent) :
  Inv comp →
  initialState (handlers (fire (Change e0) comp))
    ≠ formState (handlers (fire (Change e0) comp))
  ∧ hook (exec (handleSubmit (handlers (fire (Change e0) comp)) e)
               (world (fire (Change e0) comp)))
    ≠ hook (world (fire (Change e0) comp)).
Proof.
  intros HInv.
  destruct (handle_hook comp HInv (Change e0)) as (l & Hl & [o Ho]).
  rewrite exec_handleSubmit. unfold fire, rendered.
  rewrite (exec_App_mounted _ l Hl).
  cbn [world handlers hook initialState formState fst snd].
  assert (Hne : next_ref (exec (handle (Change e0) (handlers comp)) (world comp)) ≠ l).
  { intros Heq.
    pose proof (next_ref_unused (exec (handle (Change e0) (handlers comp)) (world comp)))
      as Hn.
    by rewrite Heq, Ho in Hn. }
  split; [done | congruence].
Qed.

Lemma submit_stores_another_object_witness :
  Inv mount
  ∧ hook (exec (handleSubmit (handlers (fire (edit "subject" EmptyString) mount))
                  sample_submit)
               (world (fire (edit "subject" EmptyString) mount)))
    ≠ hook (world (fire (edit "subject" EmptyString) mount)).
Proof.
  assert (H1 : Inv mount) by by_evaluation.
  split; [exact H1 |].
  exact (proj2 (submit_stores_another_object mount
                  {| DOM.target := {| DOM.id := "subject"; DOM.value := EmptyString |} |}
                  sample_submit H1)).
Defined.

Lemma rerender_keeps comp :
  Inv comp →
  Inv (rerender comp)
  ∧ hook (world (rerender comp)) = hook (world comp)
  ∧ trace (world (rerender comp)) = trace (world comp)
  ∧ formState (handlers (rerender comp)) = formState (handlers comp)
  ∧ FormState (rerender comp) = FormState comp.
Proof.
  intros HInv. pose proof HInv as (Hh & [s Hs] & Hi & Hk).
  assert (Hst : FormState (rerender comp) = FormState comp).
  { unfold FormState, rerender, rendered; simpl.
    by apply (state_of_App_mounted _ (formState (handlers comp))). }
  unfold Inv. rewrite Hst. unfold rerender, rendered.
  rewrite (exec_App_mounted _ _ Hh).
  cbn [world handlers heap hook trace initialState formState fst snd].
  split_and!; try done.
  - exists s. rewrite lookup_insert_ne; [done|].
    intros Heq. pose proof (next_ref_unused (world comp)) as Hn.
    by rewrite Heq, Hs in Hn.
  - by rewrite lookup_insert_eq.
Qed.

(** X14. A render performs no effect and does not touch the form state:
    however often the component renders again without an event, the cell
    holds the same object, the handlers see the same [formState], the trace
    is the same, and the component stays consistent. *)
Theorem rerender_is_pure (comp : Component) (n : nat) :
  Inv comp →
  Inv (Nat.iter n rerender comp)
  ∧ hook (world (Nat.iter n rerender comp)) = hook (world comp)
  ∧ trace (world (Nat.iter n rerender comp)) = trace (world comp)
  ∧ formState (handlers (Nat.iter n rerender comp)) = formState (handlers comp)
  ∧ FormState (Nat.iter n rerender comp) = FormState comp.
Proof.
  intros HInv.
  induction n as [|n (IH1 & IH2 & IH3 & IH4 & IH5)]; [done|].
  rewrite Nat.iter_succ.
  destruct (rerender_keeps _ IH1) as (H1 & H2 & H3 & H4 & H5).
  split_and!; [done | | | |].
  - by rewrite H2.
  - by rewrite H3.
  - by rewrite H4.
  - by rewrite H5.
Qed.

Lemma rerender_is_pure_witness :
  Inv sample_edited
  ∧ FormState (Nat.iter 3 rerender sample_edited) = FormState sample_edited.
Proof.
  assert (H1 : Inv sample_edited) by by_evaluation.
  split; [exact H1 |].
  exact (proj2 (proj2 (proj2 (proj2 (rerender_is_pure sample_edited 3 H1))))).
Defined.

(** X15. The first render in a world where the component is not mounted,
    whatever objects the store already holds: the cell is initialised with
    the [initialState] object itself, so the form state is the literal and
    [formState] and [initialState] are one object; nothing that existed is
    changed and no effect is performed. A submission at this point stores
    the reference the cell already holds. *)
Theorem first_render_shares_initialState (w : World) :
  hook w = None →
  Inv (mount_in w)
  ∧ FormState (mount_in w) = initialState_literal
  ∧ formState (handlers (mount_in w)) = initialState (handlers (mount_in w))
  ∧ heap w !! formState (handlers (mount_in w)) = None
  ∧ (∀ l o, heap w !! l = Some o → heap (world (mount_in w)) !! l = Some o)
  ∧ trace (world (mount_in w)) = trace w
  ∧ ∀ e, hook (exec (handleSubmit (handlers (mount_in w)) e) (world (mount_in w)))
         = hook (world (mount_in w)).
Proof.
  intros Hn.
  assert (Hst : FormState (mount_in w) = initialState_literal).
  { unfold FormState, state_of, mount_in, rendered. rewrite (App_unmounted w Hn).
    cbn [world hook snd from_option]. unfold deref; cbn [heap].
    by rewrite lookup_insert_eq. }
  split_and!.
  - unfold Inv. rewrite Hst. unfold mount_in, rendered. rewrite (App_unmounted w Hn).
    cbn [world handlers heap hook initialState formState fst snd].
    rewrite lookup_insert_eq. split_and!; done.
  - done.
  - unfold mount_in, rendered. by rewrite (App_unmounted w Hn).
  - unfold mount_in, rendered. rewrite (App_unmounted w Hn).
    apply next_ref_unused.
  - intros l o. apply heap_App_keeps.
  - apply trace_App.
  - intros e. rewrite exec_handleSubmit.
    unfold mount_in, rendered. by rewrite (App_unmounted w Hn).
Qed.

Definition sample_world : World :=
  {| heap := {[ 1%positive := {[ "theme" := "dark" ]} ]};
     hook := None;
     trace := [] |}.

Lemma first_render_shares_initialState_witness :
  hook sample_world = None
  ∧ FormState (mount_in sample_world) = initialState_literal.
Proof.
  assert (H1 : hook sample_world = None) by reflexivity.
  split; [exact H1 |].
  exact (proj1 (proj2 (first_render_shares_initialState sample_world H1))).
Defined.

(** *** Handlers of one render *)

(** X16. The handlers read the [formState] of the render that created
    them, not the cell. When two of them run with no render in between, the
    second does not see the first: of two edits only the second is in the
    form state, and a submission after an edit hands the console the state
    from before the edit. *)
Theorem handlers_use_their_render_state
    (comp : Component) (e1 e2 : DOM.ChangeEvent) (e : DOM.SubmitEvent) :
  Inv comp →
  let c := handlers comp in
  let w := world comp in
  state_of (exec (handleChange c e2) (exec (handleChange c e1) w))
    = <[DOM.id (DOM.target e2) := DOM.value (DOM.target e2)]> (FormState comp)
  ∧ logged (exec (handleSubmit c e) (exec (handleChange c e1) w))
    = logged w ++ [FormState comp].
Proof.
  intros HInv c w.
  pose proof HInv as (_ & [s Hs] & _ & _). fold c w in Hs.
  assert (Hd : deref (exec (handleChange c e1) w) (formState c) = FormState comp).
  { rewrite (FormState_Inv comp HInv). fold c w. unfold deref.
    by rewrite (handleChange_keeps_objects w c e1 _ _ Hs), Hs. }
  split.
  - by rewrite state_after_handleChange, Hd.
  - rewrite logged_handleSubmit, Hd. f_equal.
    rewrite exec_handleChange. unfold logged; cbn [trace].
    rewrite omap_app. cbn [omap]. by rewrite app_nil_r.
Qed.

Lemma handlers_use_their_render_state_witness :
  Inv mount
  ∧ state_of (exec (handleChange (handlers mount) sample_change)
                (exec (handleChange (handlers mount)
                         {| DOM.target := {| DOM.id := "issueType";
                                             DOM.value := "billing" |} |})
                      (world mount)))
    = <["subject" := "Invoice error"]> (FormState mount).
Proof.
  assert (H1 : Inv mount) by by_evaluation.
  split; [exact H1 |].
  exact (proj1 (handlers_use_their_render_state mount
                  {| DOM.target := {| DOM.id := "issueType"; DOM.value := "billing" |} |}
                  sample_change sample_submit H1)).
Defined.
